(** * Chalith component: the epoch barrier of a SimCES simulation component

    Shallow embedding of [chalith_component/chalith_component.py] and
    [chalith_component/chalith_message.py].

    The component is an asyncio object whose coroutines run one at a time on
    a single event loop; every [await] in the two files is a plain call into
    the next coroutine, so each coroutine is embedded as a function from the
    component's state to its new state (and its return value).  Python sets
    of participant names are [gset string], Python [int] is [Z], Python
    [str] is [string] and [+] on [str] is [String.append]. *)

From Stdlib Require Import ZArith Ascii.
From stdpp Require Import gmap strings list.

(** ** chalith_message.py *)

Module ChalithMessage.

(** The values a decoded JSON document can hold ([Dict[str, Any]]). *)
#[local] Set Warnings "-register-all".
Inductive Any : Type :=
| PyNone
| PyBool (b : bool)
| PyInt (z : Z)
| PyStr (s : string)
| PyList (l : list Any).

(** The attributes of a [ChalithMessage] that the component reads: those
    inherited from [AbstractResultMessage] and the one the class adds
    ([MESSAGE_ATTRIBUTES = {"ChalithValue": "chalith_value"}]). *)
Record t : Type := {
  message_id : string;
  source_process_id : string;
  epoch_number : Z;
  triggering_message_ids : list string;
  chalith_value : string
}.

(** The exception classes [from_json] distinguishes; [MessageError] stands
    for the class and its subclasses, [OtherException] for every class that
    is none of the three. *)
Inductive PyException : Type :=
| TypeError
| ValueError
| MessageError
| OtherException.

(** What a call does: it returns a value or it raises. *)
Inductive Outcome (A : Type) : Type :=
| Return (a : A)
| Raise (e : PyException).
Arguments Return {A} a.
Arguments Raise {A} e.

(** [_check_chalith_value]: [isinstance(chalith_value, str)]. *)
Definition _check_chalith_value (chalith_value : Any) : bool :=
  match chalith_value with
  | PyStr _ => true
  | _ => false
  end.

(** The clause [except (TypeError, ValueError, MessageError)]. *)
Definition caught (e : PyException) : bool :=
  match e with
  | TypeError | ValueError | MessageError => true
  | OtherException => false
  end.

Section FromJson.

(** [cls]: the constructor, called on the unpacked dictionary.  It is
    inherited from [AbstractResultMessage], which is not part of these two
    files; it is a parameter of [from_json]. *)
Variable cls : gmap string Any → Outcome t.

(** [from_json]: the [try] returns the constructed object, the [except]
    clause turns the three caught classes into [None]; any other exception
    leaves the [try] statement unhandled. *)
Definition from_json (json_message : gmap string Any) : Outcome (option t) :=
  match cls json_message with
  | Return message_object => Return (Some message_object)
  | Raise e => if caught e then Return None else Raise e
  end.

End FromJson.



(** The class attributes of [ChalithMessage]. *)
Definition CLASS_MESSAGE_TYPE : string := "Chalith".
Definition CHALITH_VALUE_ATTRIBUTE : string := "ChalithValue".
Definition CHALITH_VALUE_PROPERTY : string := "chalith_value".

(** [MESSAGE_ATTRIBUTES]: JSON attribute name to property name. *)
Definition MESSAGE_ATTRIBUTES : gmap string string :=
  {[CHALITH_VALUE_ATTRIBUTE := CHALITH_VALUE_PROPERTY]}.

(** [MESSAGE_ATTRIBUTES_FULL]: the dictionary display that unpacks the table
    of [AbstractResultMessage] first and [MESSAGE_ATTRIBUTES] second, so an
    entry of the second replaces one of the first under the same key.  The
    table of the parent class is not part of these files; it is the
    argument. *)
Definition MESSAGE_ATTRIBUTES_FULL (parent : gmap string string)
    : gmap string string :=
  MESSAGE_ATTRIBUTES ∪ parent.

End ChalithMessage.

(** ** chalith_component.py *)

(** What [general_message_handler] is handed: [isinstance(message_object,
    ChalithMessage)] holds or it does not. *)
Inductive MessageObject : Type :=
| IsChalithMessage (m : ChalithMessage.t)
| OtherMessage.

(** What the component hands to the message bus: the result message built
    by [_send_chalith_message] from its three keyword arguments, or the
    error message of its [except] clause. *)
Inductive Outgoing : Type :=
| ResultMessage (EpochNumber : Z) (TriggeringMessageIds : list string)
    (ChalithValue : string)
| ErrorMessage (description : string).

(** The attributes of [ChalithComponent].  [chalith_value] and
    [_input_components] are set by [__init__] and never assigned again;
    [_current_message] and [_current_input_components] are the per-epoch
    attributes of this class; [_latest_epoch] and [_triggering_message_ids]
    are attributes of the base class that this class reads and appends to;
    [sent] is the sequence of messages given to [_rabbitmq_client], oldest
    first. *)
Record ChalithComponent : Type := {
  chalith_value : string;
  _input_components : gset string;
  _current_message : string;
  _current_input_components : gset string;
  _latest_epoch : Z;
  _triggering_message_ids : list string;
  sent : list Outgoing
}.

Definition set_current_message (v : string) (self : ChalithComponent) :=
  {| chalith_value := chalith_value self;
     _input_components := _input_components self;
     _current_message := v;
     _current_input_components := _current_input_components self;
     _latest_epoch := _latest_epoch self;
     _triggering_message_ids := _triggering_message_ids self;
     sent := sent self |}.

Definition set_current_input_components (v : gset string)
    (self : ChalithComponent) :=
  {| chalith_value := chalith_value self;
     _input_components := _input_components self;
     _current_message := _current_message self;
     _current_input_components := v;
     _latest_epoch := _latest_epoch self;
     _triggering_message_ids := _triggering_message_ids self;
     sent := sent self |}.

Definition set_latest_epoch (v : Z) (self : ChalithComponent) :=
  {| chalith_value := chalith_value self;
     _input_components := _input_components self;
     _current_message := _current_message self;
     _current_input_components := _current_input_components self;
     _latest_epoch := v;
     _triggering_message_ids := _triggering_message_ids self;
     sent := sent self |}.

Definition set_triggering_message_ids (v : list string)
    (self : ChalithComponent) :=
  {| chalith_value := chalith_value self;
     _input_components := _input_components self;
     _current_message := _current_message self;
     _current_input_components := _current_input_components self;
     _latest_epoch := _latest_epoch self;
     _triggering_message_ids := v;
     sent := sent self |}.

Definition send_message (o : Outgoing) (self : ChalithComponent) :=
  {| chalith_value := chalith_value self;
     _input_components := _input_components self;
     _current_message := _current_message self;
     _current_input_components := _current_input_components self;
     _latest_epoch := _latest_epoch self;
     _triggering_message_ids := _triggering_message_ids self;
     sent := sent self ++ [o] |}.

(** [clear_epoch_variables]. *)
Definition clear_epoch_variables (self : ChalithComponent) : ChalithComponent :=
  set_current_input_components ∅ (set_current_message "" self).

(** [all_messages_received_for_epoch]: [==] on two Python sets. *)
Definition all_messages_received_for_epoch (self : ChalithComponent) : bool :=
  bool_decide (_input_components self = _current_input_components self).

Section Component.

(** [_message_generator.get_message(ChalithMessage, ...)] checks the three
    attributes in the constructor of the message class, which is not part of
    these files: [message_accepted] says whether it builds the message
    ([true]) or raises [ValueError], [TypeError] or [MessageError]. *)
Variable message_accepted : Z → list string → string → bool.

(** [_send_chalith_message]: the result message goes out, or, when building
    it raises, the error message does. *)
Definition _send_chalith_message (self : ChalithComponent) : ChalithComponent :=
  if message_accepted (_latest_epoch self) (_triggering_message_ids self)
       (_current_message self)
  then send_message
         (ResultMessage (_latest_epoch self) (_triggering_message_ids self)
            (_current_message self)) self
  else send_message
         (ErrorMessage "Internal error when creating result message.") self.

(** [process_epoch]: a set is true when it is not empty. *)
Definition process_epoch (self : ChalithComponent) : ChalithComponent * bool :=
  let self :=
    if bool_decide (_current_input_components self ≠ ∅)
    then set_current_message
           (_current_message self +:+ chalith_value self) self
    else set_current_message (chalith_value self) self in
  (_send_chalith_message self, true).

(** Modelled from the spec: [start_epoch] is a method of the base class
    [AbstractSimulationComponent] (module [tools.components]), which is not
    among the source files.  The spec's control flow: "when Epoch State
    satisfies the completion predicate, Controller invokes Reducer
    finalization, asks Transport Adapter to publish the result"; the result
    says whether the epoch was processed (the caller logs "Waiting for other
    input messages" on [False]). *)
Definition start_epoch (self : ChalithComponent) : ChalithComponent * bool :=
  if all_messages_received_for_epoch self
  then process_epoch self
  else (self, false).

(** [general_message_handler]; the logging calls have no effect on the
    component. *)
Definition general_message_handler (self : ChalithComponent)
    (message_object : MessageObject) (message_routing_key : string)
    : ChalithComponent :=
  match message_object with
  | IsChalithMessage message_object =>
      if bool_decide (ChalithMessage.source_process_id message_object
                        ∉ _input_components self)
      then self
      else if bool_decide (ChalithMessage.source_process_id message_object
                             ∈ _current_input_components self)
      then self
      else
        let self :=
          set_current_input_components
            ({[ChalithMessage.source_process_id message_object]}
               ∪ _current_input_components self) self in
        let self :=
          set_current_message
            (_current_message self
               +:+ ChalithMessage.chalith_value message_object) self in
        let self :=
          set_triggering_message_ids
            (_triggering_message_ids self
               ++ [ChalithMessage.message_id message_object]) self in
        fst (start_epoch self)
  | OtherMessage => self
  end.

(** Modelled from the spec: the handler of the epoch-start signal belongs to
    the base class [AbstractSimulationComponent], not among the source
    files.  The spec's [onEpochStart(epochNumber)]: "resets Epoch State for
    epochNumber" ([arrived] "reset to empty", [accumulator] reset,
    [causal_ids] "reset at epoch start"), then the completion predicate is
    evaluated ("If the Expected Set is empty, immediately transitions to
    READY_TO_FINALIZE").  The reset of the two attributes of this class is
    [clear_epoch_variables]. *)
Definition on_epoch_start (epoch_number : Z) (self : ChalithComponent)
    : ChalithComponent :=
  let self := set_latest_epoch epoch_number self in
  let self := set_triggering_message_ids [] self in
  let self := clear_epoch_variables self in
  fst (start_epoch self).

(** The messages of one epoch, handled one after the other. *)
Definition handle_all (self : ChalithComponent)
    (deliveries : list (MessageObject * string)) : ChalithComponent :=
  foldl (λ self d, general_message_handler self d.1 d.2) self deliveries.

End Component.

(** [__init__]: the attributes of this class as the constructor sets them;
    the base class starts before any epoch, with nothing sent.

    Modelled from the spec: the initial values of the base-class attributes
    ("created once at component start with epoch_number = 0"). *)
Definition __init__ (input_components : gset string) (chalith_value : string)
    : ChalithComponent :=
  {| chalith_value := chalith_value;
     _input_components := input_components;
     _current_message := "";
     _current_input_components := ∅;
     _latest_epoch := 0;
     _triggering_message_ids := [];
     sent := [] |}.

(** The messages the handler does not ignore, in arrival order: a
    [ChalithMessage] whose sender is expected and has not contributed yet.
    [arrived] is the set of senders that have contributed so far. *)
Fixpoint accepted (expected arrived : gset string)
    (deliveries : list (MessageObject * string)) : list ChalithMessage.t :=
  match deliveries with
  | [] => []
  | (IsChalithMessage m, _) :: rest =>
      if bool_decide (ChalithMessage.source_process_id m ∈ expected
                      ∧ ChalithMessage.source_process_id m ∉ arrived)
      then m :: accepted expected
                  ({[ChalithMessage.source_process_id m]} ∪ arrived) rest
      else accepted expected arrived rest
  | (OtherMessage, _) :: rest => accepted expected arrived rest
  end.

(** Python's [+] over a sequence of strings, left to right. *)
Definition concat_values (values : list string) : string :=
  foldr String.append "" values.

(** The states the component goes through while it handles [deliveries]:
    the state before the first one and the state after each. *)
Fixpoint observations (message_accepted : Z → list string → string → bool)
    (self : ChalithComponent) (deliveries : list (MessageObject * string))
    : list ChalithComponent :=
  self ::
  match deliveries with
  | [] => []
  | d :: rest =>
      observations message_accepted
        (general_message_handler message_accepted self d.1 d.2) rest
  end.

(** The messages sent after the first [n]. *)
Definition sent_after (n : nat) (self : ChalithComponent) : list Outgoing :=
  drop n (sent self).

(** A message as a peer sends it. *)
Definition contribution (source value id : string) (epoch : Z)
    : ChalithMessage.t :=
  {| ChalithMessage.message_id := id;
     ChalithMessage.source_process_id := source;
     ChalithMessage.epoch_number := epoch;
     ChalithMessage.triggering_message_ids := [];
     ChalithMessage.chalith_value := value |}.

(** The same message with another [EpochNumber]. *)
Definition retag (epoch : Z) (m : ChalithMessage.t) : ChalithMessage.t :=
  {| ChalithMessage.message_id := ChalithMessage.message_id m;
     ChalithMessage.source_process_id := ChalithMessage.source_process_id m;
     ChalithMessage.epoch_number := epoch;
     ChalithMessage.triggering_message_ids :=
       ChalithMessage.triggering_message_ids m;
     ChalithMessage.chalith_value := ChalithMessage.chalith_value m |}.

(** A message generator that builds every message. *)
Definition accept_all (_ : Z) (_ : list string) (_ : string) : bool := true.

(** A component with own value "own" that waits for A and B in epoch 1:
    nothing received, nothing sent yet. *)
Definition collecting_epoch_1 : ChalithComponent :=
  {| chalith_value := "own";
     _input_components := {["A"; "B"]};
     _current_message := "";
     _current_input_components := ∅;
     _latest_epoch := 1;
     _triggering_message_ids := [];
     sent := [] |}.

(** The three assignments of the last branch of [general_message_handler],
    before it calls [start_epoch]. *)
Definition folded (self : ChalithComponent) (m : ChalithMessage.t)
    : ChalithComponent :=
  set_triggering_message_ids
    (_triggering_message_ids self ++ [ChalithMessage.message_id m])
    (set_current_message
       (_current_message self +:+ ChalithMessage.chalith_value m)
       (set_current_input_components
          ({[ChalithMessage.source_process_id m]}
             ∪ _current_input_components self) self)).

(** A contribution from an expected participant, tagged epoch 2, arriving
    while the component collects for epoch 1. *)
Definition epoch_2_contribution : ChalithMessage.t :=
  contribution "A" "x" "m1" 2.

(** The same component after "x" from A under id "m1". *)
Definition a_has_arrived : ChalithComponent :=
  general_message_handler accept_all collecting_epoch_1
    (IsChalithMessage (contribution "A" "x" "m1" 1)) "ChalithTopic.A".

(** The two messages of an epoch in which A, then B contribute. *)
Definition a_then_b : list (MessageObject * string) :=
  [(IsChalithMessage (contribution "A" "x" "m1" 1), "ChalithTopic.A");
   (IsChalithMessage (contribution "B" "y" "m2" 1), "ChalithTopic.B")].

(** The names of the environment variables. *)
Definition CHALITH_VALUE : string := "CHALITH_VALUE".
Definition INPUT_COMPONENTS : string := "INPUT_COMPONENTS".
Definition CHALITH_TOPIC : string := "CHALITH_TOPIC".
Definition SIMPLE_TOPIC : string := "SIMPLE_TOPIC".

(** [s.split(sep)] for a separator of one character, in two steps: the
    piece before the first separator and the pieces after it.  The empty
    string has the one piece [""]; two separators in a row, or one at either
    end, give an empty piece. *)
Fixpoint split_at (sep : Ascii.ascii) (s : string) : string * list string :=
  match s with
  | "" => ("", [])
  | String c rest =>
      if decide (c = sep)
      then ("", (split_at sep rest).1 :: (split_at sep rest).2)
      else (String c (split_at sep rest).1, (split_at sep rest).2)
  end.

Definition str_split (sep : Ascii.ascii) (s : string) : list string :=
  (split_at sep s).1 :: (split_at sep s).2.

(** The set comprehension of [create_component]: the pieces of the
    comma-separated value that are not empty. *)
Definition parse_input_components (value : string) : gset string :=
  list_to_set (filter (λ input_component, input_component ≠ "")
                 (str_split ","%char value)).

(** [create_component].  [load_environmental_variables] is not part of these
    files; [environment_variables] is the dictionary it returns, which holds
    a string for each of the two names asked for. *)
Definition create_component (environment_variables : string → string)
    : ChalithComponent :=
  let chalith_value := environment_variables CHALITH_VALUE in
  let input_components :=
    parse_input_components (environment_variables INPUT_COMPONENTS) in
  __init__ input_components chalith_value.

(** [".".join([a, b])]. *)
Definition dot_join (a b : string) : string := a +:+ "." +:+ b.

(** The two topic attributes that [__init__] computes from the base topic
    (environment variable [CHALITH_TOPIC]) and from [component_name] (an
    attribute of the base class).  [_other_topics] is built by a
    comprehension over the set [_input_components]; the order in which a
    Python set is gone through is not fixed, here it is the order of
    [elements]. *)
Definition _chalith_topic_output
    (_chalith_topic_base component_name : string) : string :=
  dot_join _chalith_topic_base component_name.

Definition _other_topics (_chalith_topic_base : string)
    (input_components : gset string) : list string :=
  (λ other_component_name, dot_join _chalith_topic_base other_component_name)
    <$> elements input_components.

(** The characters of a string. *)
Definition chars (s : string) : list Ascii.ascii :=
  String.list_ascii_of_string s.

(** [sep.join(names)]. *)
Definition str_join (sep : Ascii.ascii) (names : list string) : string :=
  String.concat (String sep "") names.

(** The sender of a delivery, when it is a [ChalithMessage]. *)
Definition sender (d : MessageObject * string) : option string :=
  match d.1 with
  | IsChalithMessage m => Some (ChalithMessage.source_process_id m)
  | OtherMessage => None
  end.

(** The participants that sent one of the [deliveries]. *)
Definition senders (deliveries : list (MessageObject * string))
    : gset string :=
  list_to_set (omap sender deliveries).

(** What [_send_chalith_message] hands to the message bus for the three
    attributes. *)
Definition outgoing (message_accepted : Z → list string → string → bool)
    (epoch : Z) (ids : list string) (value : string) : Outgoing :=
  if message_accepted epoch ids value
  then ResultMessage epoch ids value
  else ErrorMessage "Internal error when creating result message.".

(** An environment for [create_component]: input components A and B, own
    value "own". *)
Definition example_environment (name : string) : string :=
  if decide (name = INPUT_COMPONENTS) then "A,B" else "own".

(** The two contributions of [a_then_b], as messages. *)
Definition a_and_b : list ChalithMessage.t :=
  [contribution "A" "x" "m1" 1; contribution "B" "y" "m2" 1].

(** A run in which A contributes twice and a stranger once, B never. *)
Definition a_twice_and_a_stranger : list (MessageObject * string) :=
  [(IsChalithMessage (contribution "A" "x" "m1" 1), "ChalithTopic.A");
   (IsChalithMessage (contribution "C" "z" "m3" 1), "ChalithTopic.C");
   (IsChalithMessage (contribution "A" "w" "m4" 1), "ChalithTopic.A")].

(** * Properties *)

(** ** Strings *)

Lemma append_empty_r (s : string) : s +:+ "" = s.
Proof.
  induction s as [|a s IH]; [reflexivity |].
  change (String a (s +:+ "") = String a s). by rewrite IH.
Qed.

Lemma append_assoc (s1 s2 s3 : string) :
  (s1 +:+ s2) +:+ s3 = s1 +:+ (s2 +:+ s3).
Proof.
  induction s1 as [|a s1 IH]; [reflexivity |].
  change (String a ((s1 +:+ s2) +:+ s3) = String a (s1 +:+ (s2 +:+ s3))).
  by rewrite IH.
Qed.

(** ** The completion predicate *)

(** C1.  [all_messages_received_for_epoch] answers [True] exactly when the
    arrived set [_current_input_components] and the Expected Set
    [_input_components] have the same members. *)
Theorem all_messages_received_iff_arrived_is_expected
    (self : ChalithComponent) :
  all_messages_received_for_epoch self = true
  ↔ (∀ p : string,
       p ∈ _current_input_components self ↔ p ∈ _input_components self).
Proof.
  unfold all_messages_received_for_epoch.
  rewrite bool_decide_eq_true. split.
  - intros Heq p. by rewrite Heq.
  - intros Hmem. apply set_eq. intros p. by rewrite Hmem.
Qed.

Lemma all_messages_received_true (self : ChalithComponent) :
  all_messages_received_for_epoch self = true
  ↔ _current_input_components self = _input_components self.
Proof.
  unfold all_messages_received_for_epoch.
  rewrite bool_decide_eq_true. split; congruence.
Qed.

(** ** Decoding *)



(** ** What one message does *)

Section Handler.

Variable message_accepted : Z → list string → string → bool.

(** [process_epoch] and [start_epoch] touch [_current_message] and [sent]
    only. *)
Lemma process_epoch_frame (self : ChalithComponent) :
  chalith_value (process_epoch message_accepted self).1 = chalith_value self
  ∧ _input_components (process_epoch message_accepted self).1
    = _input_components self
  ∧ _current_input_components (process_epoch message_accepted self).1
    = _current_input_components self
  ∧ _latest_epoch (process_epoch message_accepted self).1 = _latest_epoch self
  ∧ _triggering_message_ids (process_epoch message_accepted self).1
    = _triggering_message_ids self.
Proof.
  unfold process_epoch, _send_chalith_message.
  repeat case_match; simpl; auto.
Qed.

Lemma start_epoch_frame (self : ChalithComponent) :
  chalith_value (start_epoch message_accepted self).1 = chalith_value self
  ∧ _input_components (start_epoch message_accepted self).1
    = _input_components self
  ∧ _current_input_components (start_epoch message_accepted self).1
    = _current_input_components self
  ∧ _latest_epoch (start_epoch message_accepted self).1 = _latest_epoch self
  ∧ _triggering_message_ids (start_epoch message_accepted self).1
    = _triggering_message_ids self.
Proof.
  unfold start_epoch.
  destruct (all_messages_received_for_epoch self);
    [apply process_epoch_frame | simpl; auto].
Qed.

(** The three ways through [general_message_handler] on a
    [ChalithMessage]. *)
Lemma handler_foreign self m key :
  ChalithMessage.source_process_id m ∉ _input_components self →
  general_message_handler message_accepted self (IsChalithMessage m) key
  = self.
Proof.
  intros Hforeign. unfold general_message_handler.
  by rewrite bool_decide_eq_true_2.
Qed.

Lemma handler_duplicate self m key :
  ChalithMessage.source_process_id m ∈ _current_input_components self →
  general_message_handler message_accepted self (IsChalithMessage m) key
  = self.
Proof.
  intros Hdup. unfold general_message_handler.
  case_bool_decide; [reflexivity |].
  by rewrite bool_decide_eq_true_2.
Qed.

Lemma handler_fresh self m key :
  ChalithMessage.source_process_id m ∈ _input_components self →
  ChalithMessage.source_process_id m ∉ _current_input_components self →
  general_message_handler message_accepted self (IsChalithMessage m) key
  = (start_epoch message_accepted (folded self m)).1.
Proof.
  intros Hexp Hnew. unfold general_message_handler.
  rewrite bool_decide_eq_false_2 by (intros Hn; by apply Hn).
  by rewrite bool_decide_eq_false_2.
Qed.

Lemma handler_fresh_arrived self m key :
  ChalithMessage.source_process_id m ∈ _input_components self →
  ChalithMessage.source_process_id m ∉ _current_input_components self →
  _current_input_components
    (general_message_handler message_accepted self (IsChalithMessage m) key)
  = {[ChalithMessage.source_process_id m]} ∪ _current_input_components self.
Proof.
  intros Hexp Hnew. rewrite handler_fresh by done.
  by destruct (start_epoch_frame (folded self m)) as (_ & _ & -> & _).
Qed.

(** The configuration and the epoch number are not touched by a message. *)
Lemma handler_frame self message_object key :
  let self' :=
    general_message_handler message_accepted self message_object key in
  chalith_value self' = chalith_value self
  ∧ _input_components self' = _input_components self
  ∧ _latest_epoch self' = _latest_epoch self.
Proof.
  cbv zeta. destruct message_object as [m|]; [| done].
  destruct (decide (ChalithMessage.source_process_id m
                    ∈ _input_components self)) as [Hexp|Hforeign];
    [| by rewrite handler_foreign].
  destruct (decide (ChalithMessage.source_process_id m
                    ∈ _current_input_components self)) as [Hdup|Hnew];
    [by rewrite handler_duplicate |].
  rewrite handler_fresh by done.
  destruct (start_epoch_frame (folded self m)) as (-> & -> & _ & -> & _).
  done.
Qed.

(** The arrived set after a message: the one before, with the sender added
    when the message is accepted. *)
Lemma handler_arrived self message_object key :
  let self' :=
    general_message_handler message_accepted self message_object key in
  _current_input_components self' = _current_input_components self
  ∨ ∃ m, message_object = IsChalithMessage m
         ∧ ChalithMessage.source_process_id m ∈ _input_components self
         ∧ _current_input_components self'
           = {[ChalithMessage.source_process_id m]}
               ∪ _current_input_components self.
Proof.
  cbv zeta. destruct message_object as [m|]; [| by left].
  destruct (decide (ChalithMessage.source_process_id m
                    ∈ _input_components self)) as [Hexp|Hforeign];
    [| left; by rewrite handler_foreign].
  destruct (decide (ChalithMessage.source_process_id m
                    ∈ _current_input_components self)) as [Hdup|Hnew];
    [left; by rewrite handler_duplicate |].
  right. exists m. by rewrite handler_fresh_arrived.
Qed.

(** C3.  A contribution from a participant that is already in the arrived
    set is discarded: the accumulator [_current_message], the causal-id list
    [_triggering_message_ids] and the arrived set stay as they are, and
    nothing is sent. *)
Theorem duplicate_contribution_is_discarded self m key :
  ChalithMessage.source_process_id m ∈ _current_input_components self →
  let self' :=
    general_message_handler message_accepted self (IsChalithMessage m) key in
  _current_message self' = _current_message self
  ∧ _triggering_message_ids self' = _triggering_message_ids self
  ∧ _current_input_components self' = _current_input_components self
  ∧ sent self' = sent self.
Proof. intros Hdup. cbv zeta. by rewrite handler_duplicate. Qed.

(** C4.  A contribution from a participant outside the Expected Set leaves
    the whole state of the component as it was. *)
Theorem foreign_contribution_changes_nothing self m key :
  ChalithMessage.source_process_id m ∉ _input_components self →
  general_message_handler message_accepted self (IsChalithMessage m) key
  = self.
Proof. apply handler_foreign. Qed.

(** C2, as the code has it.  The handler does not look at the epoch tag: a
    contribution tagged with another epoch than the current one is handled
    as the same contribution under any tag, and it leaves the state
    unchanged exactly when its sender is outside the Expected Set or has
    already contributed. *)
Theorem epoch_tag_is_not_examined self m key :
  ChalithMessage.epoch_number m ≠ _latest_epoch self →
  (∀ epoch,
     general_message_handler message_accepted self
       (IsChalithMessage (retag epoch m)) key
     = general_message_handler message_accepted self (IsChalithMessage m) key)
  ∧ (general_message_handler message_accepted self (IsChalithMessage m) key
     = self
     ↔ ChalithMessage.source_process_id m ∉ _input_components self
       ∨ ChalithMessage.source_process_id m
         ∈ _current_input_components self).
Proof.
  intros _. split; [intros epoch; by destruct m |].
  split.
  - intros Hsame.
    destruct (decide (ChalithMessage.source_process_id m
                      ∈ _input_components self)) as [Hexp|]; [| by left].
    destruct (decide (ChalithMessage.source_process_id m
                      ∈ _current_input_components self)) as [|Hnew];
      [by right |].
    exfalso. apply Hnew.
    rewrite <- Hsame. rewrite handler_fresh_arrived by done.
    set_solver.
  - intros [Hforeign|Hdup];
      [by apply handler_foreign | by apply handler_duplicate].
Qed.

(** ** The arrived set during an epoch *)

Lemma handler_keeps_arrived_within_expected self message_object key :
  _current_input_components self ⊆ _input_components self →
  let self' :=
    general_message_handler message_accepted self message_object key in
  _current_input_components self' ⊆ _input_components self'.
Proof.
  intros Hsub. cbv zeta.
  pose proof (handler_frame self message_object key) as Hframe.
  pose proof (handler_arrived self message_object key) as Harr.
  cbv zeta in Hframe, Harr. destruct Hframe as (_ & -> & _).
  destruct Harr as [-> | (m & _ & Hexp & ->)]; [done |].
  apply union_least; [by apply singleton_subseteq_l | done].
Qed.

Lemma handler_arrived_grows self message_object key :
  _current_input_components self
  ⊆ _current_input_components
      (general_message_handler message_accepted self message_object key).
Proof.
  pose proof (handler_arrived self message_object key) as Harr.
  cbv zeta in Harr. destruct Harr as [-> | (m & _ & _ & ->)]; set_solver.
Qed.

Lemma observations_head self deliveries :
  observations message_accepted self deliveries !! 0%nat = Some self.
Proof. by destruct deliveries. Qed.

Lemma observations_within_expected deliveries : ∀ self st,
  _current_input_components self ⊆ _input_components self →
  st ∈ observations message_accepted self deliveries →
  _input_components st = _input_components self
  ∧ _current_input_components st ⊆ _input_components st.
Proof.
  induction deliveries as [|d rest IH]; intros self st Hsub Hin.
  - apply list_elem_of_singleton in Hin as ->. done.
  - cbn [observations] in Hin. apply elem_of_cons in Hin as [-> | Hin];
      [done |].
    apply IH in Hin;
      [| by apply handler_keeps_arrived_within_expected].
    destruct Hin as [-> Hin]. split; [| done].
    pose proof (handler_frame self d.1 d.2) as Hframe.
    cbv zeta in Hframe. by destruct Hframe as (_ & -> & _).
Qed.

Lemma observations_grow deliveries : ∀ self (i : nat) st st',
  observations message_accepted self deliveries !! i = Some st →
  observations message_accepted self deliveries !! S i = Some st' →
  _current_input_components st ⊆ _current_input_components st'.
Proof.
  induction deliveries as [|d rest IH]; intros self i st st' Hi HSi.
  - destruct i; discriminate HSi.
  - cbn [observations] in Hi, HSi. destruct i as [|i].
    + simpl in Hi, HSi. rewrite observations_head in HSi.
      injection Hi as <-. injection HSi as <-.
      apply handler_arrived_grows.
    + simpl in Hi, HSi. by eapply IH.
Qed.

(** C7.  From a reset of the epoch variables on, at every state the
    component goes through while it handles messages, the Expected Set is
    the configured one and the arrived set lies within it; and the arrived
    set after a message contains the arrived set before it. *)
Theorem arrived_stays_within_expected_and_grows self deliveries :
  (∀ st,
     st ∈ observations message_accepted (clear_epoch_variables self)
            deliveries →
     _input_components st = _input_components self
     ∧ _current_input_components st ⊆ _input_components st)
  ∧ (∀ (i : nat) st st',
       observations message_accepted (clear_epoch_variables self) deliveries
         !! i = Some st →
       observations message_accepted (clear_epoch_variables self) deliveries
         !! S i = Some st' →
       _current_input_components st ⊆ _current_input_components st').
Proof.
  split.
  - intros st Hin.
    by apply observations_within_expected in Hin; [| set_solver].
  - apply observations_grow.
Qed.

(** ** A whole epoch *)

(** What an accepted contribution does to the state, and whether it
    completes the epoch. *)
Lemma handler_fresh_step self m key :
  ChalithMessage.source_process_id m ∈ _input_components self →
  ChalithMessage.source_process_id m ∉ _current_input_components self →
  let self' :=
    general_message_handler message_accepted self (IsChalithMessage m) key in
  let ids := _triggering_message_ids self ++ [ChalithMessage.message_id m] in
  let v := _current_message self +:+ ChalithMessage.chalith_value m in
  _triggering_message_ids self' = ids
  ∧ if bool_decide (_input_components self
                    = {[ChalithMessage.source_process_id m]}
                        ∪ _current_input_components self)
    then _current_message self' = v +:+ chalith_value self
         ∧ sent self'
           = sent self
             ++ [if message_accepted (_latest_epoch self) ids
                      (v +:+ chalith_value self)
                 then ResultMessage (_latest_epoch self) ids
                        (v +:+ chalith_value self)
                 else ErrorMessage
                        "Internal error when creating result message."]
    else _current_message self' = v ∧ sent self' = sent self.
Proof.
  intros Hexp Hnew. cbv zeta. rewrite handler_fresh by done.
  unfold start_epoch, all_messages_received_for_epoch, folded. simpl.
  case_bool_decide as Hall; simpl; [| done].
  unfold process_epoch. simpl.
  rewrite bool_decide_eq_true_2
    by (apply (non_empty_inhabited_L (ChalithMessage.source_process_id m));
        apply elem_of_union_l; by apply elem_of_singleton).
  unfold _send_chalith_message. simpl.
  by case_match.
Qed.

Lemma handle_all_cons self message_object key rest :
  handle_all message_accepted self ((message_object, key) :: rest)
  = handle_all message_accepted
      (general_message_handler message_accepted self message_object key)
      rest.
Proof. reflexivity. Qed.

(** Once the arrived set is the Expected Set, every further message of the
    epoch falls in one of the two ignoring branches. *)
Lemma handle_all_complete deliveries : ∀ self,
  _current_input_components self = _input_components self →
  handle_all message_accepted self deliveries = self.
Proof.
  induction deliveries as [|[[m|] key] rest IH]; intros self Hall;
    [reflexivity | | by apply IH].
  rewrite handle_all_cons.
  destruct (decide (ChalithMessage.source_process_id m
                    ∈ _input_components self)) as [Hexp|Hforeign].
  - rewrite handler_duplicate by (by rewrite Hall). by apply IH.
  - rewrite handler_foreign by done. by apply IH.
Qed.

Lemma accepted_complete expected deliveries :
  accepted expected expected deliveries = [].
Proof.
  induction deliveries as [|[[m|] key] rest IH]; [reflexivity | | exact IH].
  cbn [accepted]. by rewrite bool_decide_eq_false_2 by (intros []; done).
Qed.

(** The state after the messages of an epoch, from any state in which the
    epoch is still open: the arrived set, the causal ids and the accumulator
    have grown by the accepted messages, in arrival order; the result went
    out if and only if the arrived set has reached the Expected Set, and it
    is the accumulator followed by the component's own value. *)
Lemma handle_all_collecting deliveries : ∀ self,
  _current_input_components self ⊆ _input_components self →
  _current_input_components self ≠ _input_components self →
  let acc :=
    accepted (_input_components self) (_current_input_components self)
      deliveries in
  let self' := handle_all message_accepted self deliveries in
  let ids :=
    _triggering_message_ids self ++ (ChalithMessage.message_id <$> acc) in
  let v :=
    _current_message self
      +:+ concat_values (ChalithMessage.chalith_value <$> acc) in
  _current_input_components self'
  = list_to_set (ChalithMessage.source_process_id <$> acc)
      ∪ _current_input_components self
  ∧ _triggering_message_ids self' = ids
  ∧ if all_messages_received_for_epoch self'
    then _current_message self' = v +:+ chalith_value self
         ∧ sent self'
           = sent self
             ++ [if message_accepted (_latest_epoch self) ids
                      (v +:+ chalith_value self)
                 then ResultMessage (_latest_epoch self) ids
                        (v +:+ chalith_value self)
                 else ErrorMessage
                        "Internal error when creating result message."]
    else _current_message self' = v ∧ sent self' = sent self.
Proof.
  induction deliveries as [|[[m|] key] rest IH]; intros self Hsub Hopen;
    cbv zeta.
  - cbn [accepted handle_all foldl fmap list_fmap concat_values foldr
         list_to_set].
    rewrite app_nil_r, append_empty_r, (left_id_L ∅ (∪)).
    unfold all_messages_received_for_epoch.
    by rewrite bool_decide_eq_false_2 by congruence.
  - rewrite handle_all_cons. cbn [accepted].
    case_bool_decide as Hfresh.
    + destruct Hfresh as [Hexp Hnew].
      pose proof (handler_frame self (IsChalithMessage m) key) as Hframe.
      pose proof (handler_fresh_step self m key Hexp Hnew) as Hstep.
      pose proof (handler_fresh_arrived self m key Hexp Hnew) as Harr.
      cbv zeta in Hframe, Hstep.
      destruct Hframe as (Hcv & Hinp & Hlatest).
      destruct Hstep as (Hids & Hstep).
      set (self1 := general_message_handler message_accepted self
                      (IsChalithMessage m) key) in *.
      case_bool_decide as Hall.
      * destruct Hstep as (Hmsg & Hsent).
        rewrite <- Hall, accepted_complete.
        rewrite handle_all_complete by congruence.
        cbn [fmap list_fmap concat_values foldr list_to_set].
        rewrite append_empty_r, (right_id_L ∅ (∪)).
        unfold all_messages_received_for_epoch.
        rewrite bool_decide_eq_true_2 by congruence.
        by rewrite Harr, Hids, Hmsg, Hsent.
      * destruct Hstep as (Hmsg & Hsent).
        assert (_current_input_components self1 ⊆ _input_components self1)
          as Hsub1.
        { rewrite Harr, Hinp.
          apply union_least; [by apply singleton_subseteq_l | done]. }
        assert (_current_input_components self1 ≠ _input_components self1)
          as Hopen1 by congruence.
        specialize (IH self1 Hsub1 Hopen1). cbv zeta in IH.
        rewrite Hinp, Harr, Hids, Hmsg, Hsent, Hcv, Hlatest in IH.
        destruct IH as (IHarr & IHids & IH).
        cbn [fmap list_fmap concat_values foldr list_to_set].
        rewrite IHarr, IHids.
        rewrite <- !(assoc_L (++)), !append_assoc in IH.
        rewrite <- ?(assoc_L (++)), ?append_assoc.
        rewrite (assoc_L (∪)), (comm_L (∪) _ {[_]}).
        split; [reflexivity | split; [reflexivity | exact IH]].
    + assert (general_message_handler message_accepted self
                (IsChalithMessage m) key = self) as ->.
      { destruct (decide (ChalithMessage.source_process_id m
                          ∈ _input_components self)) as [Hexp|];
          [| by apply handler_foreign].
        destruct (decide (ChalithMessage.source_process_id m
                          ∈ _current_input_components self)) as [|Hnew];
          [by apply handler_duplicate | by destruct Hfresh]. }
      by apply IH.
  - by apply IH.
Qed.

Lemma handle_all_frame deliveries : ∀ self,
  let self' := handle_all message_accepted self deliveries in
  chalith_value self' = chalith_value self
  ∧ _input_components self' = _input_components self
  ∧ _latest_epoch self' = _latest_epoch self.
Proof.
  induction deliveries as [|[message_object key] rest IH]; intros self;
    cbv zeta; [done |].
  rewrite handle_all_cons.
  pose proof (handler_frame self message_object key) as Hframe.
  specialize (IH (general_message_handler message_accepted self
                    message_object key)).
  cbv zeta in Hframe, IH.
  destruct Hframe as (<- & <- & <-). exact IH.
Qed.

(** The state right after the epoch-start signal. *)
Lemma on_epoch_start_state self epoch :
  let self' := on_epoch_start message_accepted epoch self in
  chalith_value self' = chalith_value self
  ∧ _input_components self' = _input_components self
  ∧ _latest_epoch self' = epoch
  ∧ _current_input_components self' = ∅
  ∧ _triggering_message_ids self' = []
  ∧ if bool_decide (_input_components self = ∅)
    then _current_message self' = chalith_value self
         ∧ sent self'
           = sent self
             ++ [if message_accepted epoch [] (chalith_value self)
                 then ResultMessage epoch [] (chalith_value self)
                 else ErrorMessage
                        "Internal error when creating result message."]
    else _current_message self' = "" ∧ sent self' = sent self.
Proof.
  cbv zeta.
  unfold on_epoch_start, start_epoch, all_messages_received_for_epoch.
  simpl. case_bool_decide; simpl; [| done].
  unfold process_epoch. simpl.
  rewrite bool_decide_eq_false_2 by (intros Hne; by apply Hne).
  unfold _send_chalith_message. simpl. by case_match.
Qed.

(** One epoch, from the epoch-start signal through any messages: the
    arrived set and the causal ids are those of the accepted messages, and
    one message went out, built from the epoch number, the causal ids and
    the accepted values followed by the component's own value, if and only
    if the arrived set is the Expected Set. *)
Lemma epoch_run self epoch deliveries :
  let acc := accepted (_input_components self) ∅ deliveries in
  let self' :=
    handle_all message_accepted
      (on_epoch_start message_accepted epoch self) deliveries in
  let ids := ChalithMessage.message_id <$> acc in
  let v :=
    concat_values (ChalithMessage.chalith_value <$> acc)
      +:+ chalith_value self in
  _input_components self' = _input_components self
  ∧ _current_input_components self'
    = list_to_set (ChalithMessage.source_process_id <$> acc)
  ∧ _triggering_message_ids self' = ids
  ∧ sent self'
    = sent self
      ++ if all_messages_received_for_epoch self'
         then [if message_accepted epoch ids v
               then ResultMessage epoch ids v
               else ErrorMessage
                      "Internal error when creating result message."]
         else [].
Proof.
  cbv zeta.
  pose proof (on_epoch_start_state self epoch) as Hstart.
  pose proof (handle_all_frame deliveries
                (on_epoch_start message_accepted epoch self)) as Hframe.
  cbv zeta in Hstart, Hframe.
  set (self0 := on_epoch_start message_accepted epoch self) in *.
  destruct Hstart as (Hcv & Hinp & Hlatest & Harr & Hids & Hstart).
  destruct Hframe as (_ & Hinp' & _).
  split; [congruence |].
  case_bool_decide as Hempty.
  - destruct Hstart as (Hmsg & Hsent).
    rewrite handle_all_complete by congruence.
    rewrite Hempty, accepted_complete. cbn [fmap list_fmap list_to_set].
    unfold all_messages_received_for_epoch.
    rewrite bool_decide_eq_true_2 by congruence.
    done.
  - destruct Hstart as (Hmsg & Hsent).
    pose proof (handle_all_collecting deliveries self0) as Hrun.
    cbv zeta in Hrun.
    rewrite Hinp, Harr, Hids, Hmsg, Hsent, Hcv, Hlatest in Hrun.
    destruct Hrun as (Hrun_arr & Hrun_ids & Hrun);
      [apply empty_subseteq | congruence |].
    rewrite (right_id_L ∅ (∪)) in Hrun_arr.
    split; [done |]. split; [done |].
    destruct (all_messages_received_for_epoch
                (handle_all message_accepted self0 deliveries));
      [by destruct Hrun as (_ & ->) |].
    destruct Hrun as (_ & ->). by rewrite app_nil_r.
Qed.

(** C6.  With an empty Expected Set the epoch is complete at the epoch
    start: after the epoch-start signal, with no contribution arrived, the
    completion predicate holds, and the result message of the epoch has
    gone out with the component's configured value [chalith_value] as its
    value. *)
Theorem empty_expected_set_completes_at_epoch_start self epoch :
  _input_components self = ∅ →
  message_accepted epoch [] (chalith_value self) = true →
  let self' := on_epoch_start message_accepted epoch self in
  _current_input_components self' = ∅
  ∧ all_messages_received_for_epoch self' = true
  ∧ sent self' = sent self ++ [ResultMessage epoch [] (chalith_value self)].
Proof.
  intros Hempty Haccepted. cbv zeta.
  pose proof (on_epoch_start_state self epoch) as Hstart.
  cbv zeta in Hstart.
  destruct Hstart as (_ & Hinp & _ & Harr & _ & Hstart).
  rewrite bool_decide_eq_true_2, Haccepted in Hstart by done.
  destruct Hstart as (_ & Hsent).
  split; [done |]. split; [| done].
  apply all_messages_received_true. congruence.
Qed.

(** C8.  When the message generator builds the result message: from the
    epoch-start signal on and after any messages of the epoch, what the
    component has sent since is exactly one result message for that epoch
    if the completion predicate holds, and nothing if it does not. *)
Theorem one_result_per_completed_epoch_none_before self epoch deliveries :
  (∀ e ids v, message_accepted e ids v = true) →
  let self' :=
    handle_all message_accepted
      (on_epoch_start message_accepted epoch self) deliveries in
  ∃ ids v,
    sent self'
    = sent self
      ++ if all_messages_received_for_epoch self'
         then [ResultMessage epoch ids v]
         else [].
Proof.
  intros Haccepted. cbv zeta.
  destruct (epoch_run self epoch deliveries) as (_ & _ & _ & Hsent).
  rewrite Haccepted in Hsent. eauto.
Qed.

(** C10.  Every result message of an epoch carries the values of the
    accepted contributions, concatenated in arrival order, followed by the
    component's own [chalith_value]. *)
Theorem published_value_ends_with_own_value self epoch deliveries e ids v :
  ResultMessage e ids v
  ∈ sent_after (length (sent self))
      (handle_all message_accepted
         (on_epoch_start message_accepted epoch self) deliveries) →
  v = concat_values
        (ChalithMessage.chalith_value
           <$> accepted (_input_components self) ∅ deliveries)
      +:+ chalith_value self.
Proof.
  unfold sent_after.
  destruct (epoch_run self epoch deliveries) as (_ & _ & _ & ->).
  rewrite drop_app_length.
  destruct (all_messages_received_for_epoch _);
    [| by intros ?%elem_of_nil].
  intros Hin%list_elem_of_singleton.
  destruct (message_accepted _ _ _); [| discriminate Hin].
  by injection Hin as _ _ ->.
Qed.

(** C5.  Expected Set {A, B}, own value (seed) "", epoch start for epoch
    1, then "x" from A under id "m1" and "y" from B under id "m2": one
    message has been sent, the result for epoch 1 with value "xy" and causal
    ids "m1", "m2" in that order. *)
Theorem scenario_two_contributions key_a key_b :
  message_accepted 1 ["m1"; "m2"] "xy" = true →
  sent
    (handle_all message_accepted
       (on_epoch_start message_accepted 1 (__init__ {["A"; "B"]} ""))
       [(IsChalithMessage (contribution "A" "x" "m1" 1), key_a);
        (IsChalithMessage (contribution "B" "y" "m2" 1), key_b)])
  = [ResultMessage 1 ["m1"; "m2"] "xy"].
Proof.
  intros Haccepted.
  pose proof (epoch_run (__init__ {["A"; "B"]} "") 1
    [(IsChalithMessage (contribution "A" "x" "m1" 1), key_a);
     (IsChalithMessage (contribution "B" "y" "m2" 1), key_b)]) as Hrun.
  cbv zeta in Hrun.
  assert (accepted (_input_components (__init__ {["A"; "B"]} "")) ∅
            [(IsChalithMessage (contribution "A" "x" "m1" 1), key_a);
             (IsChalithMessage (contribution "B" "y" "m2" 1), key_b)]
          = [contribution "A" "x" "m1" 1; contribution "B" "y" "m2" 1])
    as Hacc by (by vm_compute).
  rewrite Hacc in Hrun. destruct Hrun as (Hinp & Harr & _ & ->).
  unfold all_messages_received_for_epoch. rewrite Hinp, Harr.
  rewrite bool_decide_eq_true_2 by set_solver.
  cbn [fmap list_fmap concat_values foldr ChalithMessage.message_id
       ChalithMessage.chalith_value contribution __init__ chalith_value
       sent].
  change (("x" +:+ "y" +:+ "") +:+ "") with "xy".
  by rewrite Haccepted.
Qed.

End Handler.

(** C2 fails as stated: the component collects for epoch 1 and expects A
    and B; a contribution from A tagged epoch 2 is folded into the
    accumulator, A joins the arrived set and the message id joins the causal
    ids. *)
Lemma contribution_for_another_epoch_is_folded :
  ChalithMessage.epoch_number epoch_2_contribution
  ≠ _latest_epoch collecting_epoch_1
  ∧ _current_message collecting_epoch_1 = ""
  ∧ _current_message
      (general_message_handler accept_all collecting_epoch_1
         (IsChalithMessage epoch_2_contribution) "ChalithTopic.A") = "x"
  ∧ ("A" ∉ _current_input_components collecting_epoch_1)
  ∧ ("A" ∈ _current_input_components
             (general_message_handler accept_all collecting_epoch_1
                (IsChalithMessage epoch_2_contribution) "ChalithTopic.A"))
  ∧ _triggering_message_ids collecting_epoch_1 = []
  ∧ _triggering_message_ids
      (general_message_handler accept_all collecting_epoch_1
         (IsChalithMessage epoch_2_contribution) "ChalithTopic.A") = ["m1"].
Proof.
  split; [by vm_compute |].
  split; [reflexivity |]. split; [reflexivity |].
  split; [by vm_compute |].
  split; [| split; reflexivity].
  rewrite handler_fresh_arrived; [set_solver | by vm_compute | by vm_compute].
Qed.

(** ** The theorems at work on concrete components *)

Lemma epoch_start_reaches_collecting_epoch_1 :
  on_epoch_start accept_all 1 (__init__ {["A"; "B"]} "own")
  = collecting_epoch_1.
Proof. by vm_compute. Qed.

Lemma duplicate_contribution_is_discarded_witness :
  ("A" ∈ _current_input_components a_has_arrived)
  ∧ (_current_message
       (general_message_handler accept_all a_has_arrived
          (IsChalithMessage (contribution "A" "z" "m3" 1)) "ChalithTopic.A")
     = "x"
     ∧ _triggering_message_ids
         (general_message_handler accept_all a_has_arrived
            (IsChalithMessage (contribution "A" "z" "m3" 1))
            "ChalithTopic.A")
       = ["m1"]
     ∧ _current_input_components
         (general_message_handler accept_all a_has_arrived
            (IsChalithMessage (contribution "A" "z" "m3" 1))
            "ChalithTopic.A")
       = _current_input_components a_has_arrived
     ∧ sent
         (general_message_handler accept_all a_has_arrived
            (IsChalithMessage (contribution "A" "z" "m3" 1))
            "ChalithTopic.A")
       = []).
Proof.
  split; [by vm_compute |].
  apply (duplicate_contribution_is_discarded accept_all a_has_arrived
           (contribution "A" "z" "m3" 1) "ChalithTopic.A").
  by vm_compute.
Defined.

Lemma foreign_contribution_changes_nothing_witness :
  ("C" ∉ _input_components collecting_epoch_1)
  ∧ general_message_handler accept_all collecting_epoch_1
      (IsChalithMessage (contribution "C" "z" "m3" 1)) "ChalithTopic.C"
    = collecting_epoch_1.
Proof.
  split; [by vm_compute |].
  apply (foreign_contribution_changes_nothing accept_all collecting_epoch_1
           (contribution "C" "z" "m3" 1) "ChalithTopic.C").
  by vm_compute.
Defined.

Lemma epoch_tag_is_not_examined_witness :
  ChalithMessage.epoch_number epoch_2_contribution
  ≠ _latest_epoch collecting_epoch_1
  ∧ (∀ epoch,
       general_message_handler accept_all collecting_epoch_1
         (IsChalithMessage (retag epoch epoch_2_contribution))
         "ChalithTopic.A"
       = general_message_handler accept_all collecting_epoch_1
           (IsChalithMessage epoch_2_contribution) "ChalithTopic.A")
  ∧ (general_message_handler accept_all collecting_epoch_1
       (IsChalithMessage epoch_2_contribution) "ChalithTopic.A"
     = collecting_epoch_1
     ↔ "A" ∉ _input_components collecting_epoch_1
       ∨ "A" ∈ _current_input_components collecting_epoch_1).
Proof.
  split; [by vm_compute |].
  apply (epoch_tag_is_not_examined accept_all collecting_epoch_1
           epoch_2_contribution "ChalithTopic.A").
  by vm_compute.
Defined.

Lemma empty_expected_set_completes_at_epoch_start_witness :
  _input_components (__init__ ∅ "own") = ∅
  ∧ accept_all 1 [] (chalith_value (__init__ ∅ "own")) = true
  ∧ _current_input_components
      (on_epoch_start accept_all 1 (__init__ ∅ "own")) = ∅
  ∧ all_messages_received_for_epoch
      (on_epoch_start accept_all 1 (__init__ ∅ "own")) = true
  ∧ sent (on_epoch_start accept_all 1 (__init__ ∅ "own"))
    = [ResultMessage 1 [] "own"].
Proof.
  split; [reflexivity |]. split; [reflexivity |].
  apply (empty_expected_set_completes_at_epoch_start accept_all
           (__init__ ∅ "own") 1); reflexivity.
Defined.

Lemma one_result_per_completed_epoch_none_before_witness :
  (∀ e ids v, accept_all e ids v = true)
  ∧ ∃ ids v,
      sent (handle_all accept_all
              (on_epoch_start accept_all 1 (__init__ {["A"; "B"]} "own"))
              a_then_b)
      = sent (__init__ {["A"; "B"]} "own")
        ++ if all_messages_received_for_epoch
                (handle_all accept_all
                   (on_epoch_start accept_all 1 (__init__ {["A"; "B"]} "own"))
                   a_then_b)
           then [ResultMessage 1 ids v]
           else [].
Proof.
  split; [reflexivity |].
  apply (one_result_per_completed_epoch_none_before accept_all
           (__init__ {["A"; "B"]} "own") 1 a_then_b).
  reflexivity.
Defined.

Lemma published_value_ends_with_own_value_witness :
  ResultMessage 1 ["m1"; "m2"] "xyown"
  ∈ sent_after (length (sent (__init__ {["A"; "B"]} "own")))
      (handle_all accept_all
         (on_epoch_start accept_all 1 (__init__ {["A"; "B"]} "own")) a_then_b)
  ∧ "xyown"
    = concat_values
        (ChalithMessage.chalith_value
           <$> accepted (_input_components (__init__ {["A"; "B"]} "own")) ∅
                 a_then_b)
      +:+ chalith_value (__init__ {["A"; "B"]} "own").
Proof.
  assert (ResultMessage 1 ["m1"; "m2"] "xyown"
          ∈ sent_after (length (sent (__init__ {["A"; "B"]} "own")))
              (handle_all accept_all
                 (on_epoch_start accept_all 1 (__init__ {["A"; "B"]} "own"))
                 a_then_b)) as Hsent
    by (vm_compute; apply list_elem_of_here).
  split; [exact Hsent |].
  exact (published_value_ends_with_own_value accept_all
           (__init__ {["A"; "B"]} "own") 1 a_then_b 1 ["m1"; "m2"] "xyown"
           Hsent).
Defined.

Lemma scenario_two_contributions_witness :
  accept_all 1 ["m1"; "m2"] "xy" = true
  ∧ sent
      (handle_all accept_all
         (on_epoch_start accept_all 1 (__init__ {["A"; "B"]} ""))
         [(IsChalithMessage (contribution "A" "x" "m1" 1), "ChalithTopic.A");
          (IsChalithMessage (contribution "B" "y" "m2" 1),
           "ChalithTopic.B")])
    = [ResultMessage 1 ["m1"; "m2"] "xy"].
Proof.
  split; [reflexivity |].
  apply (scenario_two_contributions accept_all "ChalithTopic.A"
           "ChalithTopic.B").
  reflexivity.
Defined.

Lemma arrived_stays_within_expected_and_grows_witness :
  (_input_components a_has_arrived = _input_components collecting_epoch_1
   ∧ _current_input_components a_has_arrived
     ⊆ _input_components a_has_arrived)
  ∧ _current_input_components collecting_epoch_1
    ⊆ _current_input_components a_has_arrived.
Proof.
  destruct (arrived_stays_within_expected_and_grows accept_all
              collecting_epoch_1 a_then_b) as [Hwithin Hgrows].
  split.
  - apply (Hwithin a_has_arrived).
    vm_compute. apply list_elem_of_further, list_elem_of_here.
  - apply (Hgrows 0%nat collecting_epoch_1 a_has_arrived); by vm_compute.
Defined.

(** * Further properties of the two files *)

(** ** [create_component]: the comma-separated list of input components *)

Lemma split_at_piece (sep : Ascii.ascii) (a b : string) :
  sep ∉ chars a →
  split_at sep (a +:+ String sep b) = (a, str_split sep b).
Proof.
  induction a as [|c a IH]; intros Hfree.
  - change (split_at sep (String sep b) = ("", str_split sep b)).
    cbn [split_at]. by rewrite decide_True.
  - change (split_at sep (String c (a +:+ String sep b))
            = (String c a, str_split sep b)).
    cbn [split_at]. unfold chars in *. cbn [String.list_ascii_of_string] in *.
    apply not_elem_of_cons in Hfree as [Hc Hfree].
    rewrite decide_False by congruence.
    by rewrite IH.
Qed.

Lemma str_split_piece (sep : Ascii.ascii) (a b : string) :
  sep ∉ chars a →
  str_split sep (a +:+ String sep b) = a :: str_split sep b.
Proof. intros Hfree. unfold str_split at 1. by rewrite split_at_piece. Qed.

Lemma str_split_one_piece (sep : Ascii.ascii) (a : string) :
  sep ∉ chars a → str_split sep a = [a].
Proof.
  unfold str_split.
  induction a as [|c a IH]; intros Hfree; [reflexivity |].
  unfold chars in *. cbn [String.list_ascii_of_string] in *.
  apply not_elem_of_cons in Hfree as [Hc Hfree].
  cbn [split_at]. rewrite decide_False by congruence.
  specialize (IH Hfree). simpl in *. congruence.
Qed.

Lemma str_split_pieces_free (sep : Ascii.ascii) (s piece : string) :
  piece ∈ str_split sep s → sep ∉ chars piece.
Proof.
  unfold str_split. revert piece.
  induction s as [|c s IH]; intros piece Hin.
  - apply list_elem_of_singleton in Hin as ->. apply not_elem_of_nil.
  - cbn [split_at] in Hin. destruct (decide (c = sep)) as [->|Hc].
    + cbn [fst snd] in Hin. apply elem_of_cons in Hin as [-> | Hin];
        [apply not_elem_of_nil | by apply IH].
    + cbn [fst snd] in Hin. apply elem_of_cons in Hin as [-> | Hin].
      * unfold chars. cbn [String.list_ascii_of_string].
        apply not_elem_of_cons. split; [congruence |].
        apply IH, list_elem_of_here.
      * by apply IH, list_elem_of_further.
Qed.

Lemma str_join_cons (sep : Ascii.ascii) (name : string)
    (names : list string) :
  names ≠ [] →
  str_join sep (name :: names) = name +:+ String sep (str_join sep names).
Proof. by destruct names. Qed.

Lemma str_split_join (sep : Ascii.ascii) (names : list string) :
  names ≠ [] →
  Forall (λ name, sep ∉ chars name) names →
  str_split sep (str_join sep names) = names.
Proof.
  intros Hne Hfree. induction Hfree as [|name names Hname Hnames IH];
    [done |].
  destruct names as [|name' names].
  - by apply str_split_one_piece.
  - rewrite str_join_cons by done.
    rewrite str_split_piece by done.
    by rewrite IH.
Qed.

Lemma parsed_name_valid (value name : string) :
  name ∈ parse_input_components value →
  name ≠ "" ∧ ","%char ∉ chars name.
Proof.
  unfold parse_input_components.
  rewrite elem_of_list_to_set, list_elem_of_filter.
  intros [Hne Hin]. split; [done |].
  by eapply str_split_pieces_free.
Qed.

(** X1.  Every name that [create_component] puts in the Expected Set is a
    piece of the configured value between two commas: it is not empty and
    holds no comma. *)
Theorem parsed_names_are_nonempty_and_comma_free (value name : string) :
  name ∈ parse_input_components value →
  name ≠ "" ∧ ","%char ∉ chars name.
Proof. apply parsed_name_valid. Qed.

Lemma filter_all {A} (P : A → Prop) `{!∀ x, Decision (P x)} (l : list A) :
  Forall P l → filter P l = l.
Proof.
  induction 1 as [|x l Hx Hl IH]; [reflexivity |].
  by rewrite filter_cons_True, IH.
Qed.

(** X2.  Round trip of the configuration: for names that are not empty and
    hold no comma, the Expected Set read from the names joined by commas is
    the set of those names, whatever their order and however often one is
    repeated. *)
Theorem parse_input_components_str_join (names : list string) :
  Forall (λ name, name ≠ "" ∧ ","%char ∉ chars name) names →
  parse_input_components (str_join "," names) = list_to_set names.
Proof.
  intros Hnames. unfold parse_input_components.
  destruct names as [|name names]; [by vm_compute |].
  rewrite str_split_join;
    [| done | eapply Forall_impl; [exact Hnames | by intros ? []]].
  f_equal. apply filter_all.
  eapply Forall_impl; [exact Hnames | by intros ? []].
Qed.

Lemma str_split_all_empty_iff (sep : Ascii.ascii) (s : string) :
  (∀ piece, piece ∈ str_split sep s → piece = "")
  ↔ ∀ c, c ∈ chars s → c = sep.
Proof.
  unfold str_split, chars. induction s as [|c s IH].
  - split.
    + by intros _ c Hc%elem_of_nil.
    + by intros _ piece ->%list_elem_of_singleton.
  - cbn [split_at String.list_ascii_of_string].
    destruct (decide (c = sep)) as [->|Hc]; cbn [fst snd].
    + split.
      * intros Hpieces c [-> | Hin]%elem_of_cons; [done |].
        apply IH; [| done].
        intros piece Hpiece. by apply Hpieces, list_elem_of_further.
      * intros Hchars piece [-> | Hin]%elem_of_cons; [done |].
        revert piece Hin. apply IH.
        intros c Hin. by apply Hchars, list_elem_of_further.
    + split.
      * intros Hpieces. by specialize (Hpieces _ (list_elem_of_here _ _)).
      * intros Hchars. by specialize (Hchars _ (list_elem_of_here _ _)).
Qed.

(** X3.  The Expected Set that [create_component] reads is empty exactly
    when the configured value holds nothing but commas (the empty value, the
    default, among them). *)
Theorem parse_input_components_empty_iff (value : string) :
  parse_input_components value = ∅
  ↔ ∀ c, c ∈ chars value → c = ","%char.
Proof.
  rewrite <- str_split_all_empty_iff. unfold parse_input_components.
  rewrite elem_of_equiv_empty_L. split.
  - intros Hempty piece Hin.
    destruct (decide (piece = "")) as [|Hne]; [done |].
    exfalso. apply (Hempty piece).
    by apply elem_of_list_to_set, list_elem_of_filter.
  - intros Hpieces piece [Hne Hin]%elem_of_list_to_set%list_elem_of_filter.
    by apply Hne, Hpieces.
Qed.

Section CreatedComponent.

Variable message_accepted : Z → list string → string → bool.
Variable environment_variables : string → string.

(** X4.  A component built by [create_component] ignores every contribution
    whose sender name is empty or holds a comma, in whatever state it is:
    such a name cannot be one of its input components. *)
Theorem created_component_ignores_malformed_sender self m key :
  _input_components self
  = _input_components (create_component environment_variables) →
  ChalithMessage.source_process_id m = ""
  ∨ ","%char ∈ chars (ChalithMessage.source_process_id m) →
  general_message_handler message_accepted self (IsChalithMessage m) key
  = self.
Proof.
  intros Hinp Hbad. apply handler_foreign. rewrite Hinp.
  intros [Hne Hfree]%parsed_name_valid.
  by destruct Hbad.
Qed.

End CreatedComponent.

(** ** [__init__]: the topics *)

#[local] Instance dot_join_inj (base : string) : Inj (=) (=) (dot_join base).
Proof.
  intros a b Hab. unfold dot_join in Hab.
  by apply (inj (String.app base)), (inj (String.app ".")) in Hab.
Qed.

(** X5.  The component listens to one topic per input component: the
    topics of [_other_topics] are pairwise different and there are as many
    as input components. *)
Theorem other_topics_one_per_input_component (base : string)
    (input_components : gset string) :
  NoDup (_other_topics base input_components)
  ∧ length (_other_topics base input_components) = size input_components.
Proof.
  unfold _other_topics. split.
  - apply (NoDup_fmap_2 (dot_join base)), NoDup_elements.
  - by rewrite length_fmap.
Qed.

(** X6.  The component listens to the topic it publishes on exactly when its
    own name is one of its input components. *)
Theorem listens_to_own_topic_iff (base component_name : string)
    (input_components : gset string) :
  _chalith_topic_output base component_name
  ∈ _other_topics base input_components
  ↔ component_name ∈ input_components.
Proof.
  unfold _chalith_topic_output, _other_topics.
  rewrite (list_elem_of_fmap_inj (dot_join base)).
  apply elem_of_elements.
Qed.

(** ** The message handler over a run of messages *)

Section Runs.

Variable message_accepted : Z → list string → string → bool.

#[local] Set Warnings "-clear-no-such-hyp".

Lemma senders_cons d rest :
  senders (d :: rest)
  = match sender d with
    | Some p => {[p]} ∪ senders rest
    | None => senders rest
    end.
Proof. unfold senders. cbn [omap list_omap]. by destruct (sender d). Qed.

Lemma handler_arrived_closed self message_object key :
  _current_input_components
    (general_message_handler message_accepted self message_object key)
  = _current_input_components self
    ∪ (match sender (message_object, key) with
       | Some p => {[p]}
       | None => ∅
       end ∩ _input_components self).
Proof.
  destruct message_object as [m|]; unfold sender; cbn [fst snd];
    [| set_solver].
  destruct (decide (ChalithMessage.source_process_id m
                    ∈ _input_components self)) as [Hexp|Hforeign];
    [| rewrite handler_foreign by done; set_solver].
  destruct (decide (ChalithMessage.source_process_id m
                    ∈ _current_input_components self)) as [Hdup|Hnew];
    [rewrite handler_duplicate by done; set_solver |].
  rewrite handler_fresh_arrived by done. set_solver.
Qed.

Lemma handle_all_arrived deliveries : ∀ self,
  _current_input_components (handle_all message_accepted self deliveries)
  = _current_input_components self
    ∪ (senders deliveries ∩ _input_components self).
Proof.
  induction deliveries as [|d rest IH]; intros self.
  - unfold senders. cbn [handle_all foldl omap list_omap list_to_set].
    set_solver.
  - destruct d as [message_object key]. rewrite handle_all_cons, IH.
    pose proof (handler_frame message_accepted self message_object key)
      as Hframe.
    cbv zeta in Hframe. destruct Hframe as (_ & -> & _).
    rewrite handler_arrived_closed.
    rewrite senders_cons. destruct (sender (message_object, key));
      set_solver.
Qed.

(** X7.  The arrived set after any run of messages is the arrived set before
    it together with the senders of the run that are in the Expected Set:
    foreign senders, repeated senders and the order of the messages make no
    difference to it. *)
Theorem arrived_after_messages self deliveries :
  _current_input_components (handle_all message_accepted self deliveries)
  = _current_input_components self
    ∪ (senders deliveries ∩ _input_components self).
Proof. apply handle_all_arrived. Qed.

(** X8.  Whether the epoch is complete after a run of messages does not
    depend on the order in which the messages arrive. *)
Theorem completion_does_not_depend_on_arrival_order self deliveries
    deliveries' :
  deliveries ≡ₚ deliveries' →
  all_messages_received_for_epoch
    (handle_all message_accepted self deliveries)
  = all_messages_received_for_epoch
      (handle_all message_accepted self deliveries').
Proof.
  intros Hperm.
  assert (senders deliveries = senders deliveries') as Hsenders
    by (unfold senders; by rewrite Hperm).
  unfold all_messages_received_for_epoch.
  rewrite !handle_all_arrived.
  pose proof (handle_all_frame message_accepted deliveries self) as Hframe.
  pose proof (handle_all_frame message_accepted deliveries' self) as Hframe'.
  cbv zeta in Hframe, Hframe'.
  destruct Hframe as (_ & -> & _). destruct Hframe' as (_ & -> & _).
  by rewrite Hsenders.
Qed.

(** X9.  Once the arrived set is the Expected Set, the component ignores
    every further message: no run of messages changes its state, and so
    nothing more is sent before the epoch variables are cleared. *)
Theorem complete_epoch_ignores_messages self deliveries :
  all_messages_received_for_epoch self = true →
  handle_all message_accepted self deliveries = self.
Proof.
  intros Hall%all_messages_received_true. by apply handle_all_complete.
Qed.

Lemma handle_all_blocked deliveries : ∀ self p,
  p ∈ _input_components self →
  p ∉ _current_input_components self →
  p ∉ senders deliveries →
  sent (handle_all message_accepted self deliveries) = sent self.
Proof.
  induction deliveries as [|[message_object key] rest IH];
    intros self p Hexp Hmissing Hsilent; [reflexivity |].
  rewrite handle_all_cons. rewrite senders_cons in Hsilent.
  pose proof (handler_frame message_accepted self message_object key)
    as Hframe.
  pose proof (handler_arrived_closed self message_object key) as Harr.
  cbv zeta in Hframe.
  destruct Hframe as (_ & Hinp & _).
  assert (sent (general_message_handler message_accepted self
                  message_object key) = sent self) as Hsent.
  { destruct message_object as [m|]; [| reflexivity].
    unfold sender in Hsilent. cbn [fst] in Hsilent.
    destruct (decide (ChalithMessage.source_process_id m
                      ∈ _input_components self)) as [Hm|];
      [| by rewrite handler_foreign].
    destruct (decide (ChalithMessage.source_process_id m
                      ∈ _current_input_components self)) as [|Hnew];
      [by rewrite handler_duplicate |].
    pose proof (handler_fresh_step message_accepted self m key Hm Hnew)
      as Hstep.
    cbv zeta in Hstep. destruct Hstep as (_ & Hstep).
    rewrite bool_decide_eq_false_2 in Hstep; [by destruct Hstep |].
    intros Heq. rewrite Heq in Hexp. set_solver. }
  rewrite <- Hsent. apply (IH _ p).
  - by rewrite Hinp.
  - rewrite Harr. destruct (sender (message_object, key)); set_solver.
  - destruct (sender (message_object, key)); set_solver.
Qed.

(** X10.  While one expected participant has not contributed, the barrier
    holds: if [p] is expected, has not arrived and sends none of the
    messages of a run, then the run sends nothing and the epoch is not
    complete after it, whatever the other participants send. *)
Theorem missing_participant_blocks_the_epoch self deliveries p :
  p ∈ _input_components self →
  p ∉ _current_input_components self →
  p ∉ senders deliveries →
  sent (handle_all message_accepted self deliveries) = sent self
  ∧ all_messages_received_for_epoch
      (handle_all message_accepted self deliveries) = false.
Proof.
  intros Hexp Hmissing Hsilent. split; [by eapply handle_all_blocked |].
  unfold all_messages_received_for_epoch. apply bool_decide_eq_false_2.
  rewrite handle_all_arrived.
  pose proof (handle_all_frame message_accepted deliveries self) as Hframe.
  cbv zeta in Hframe. destruct Hframe as (_ & -> & _).
  intros Heq. rewrite Heq in Hexp. set_solver.
Qed.

Lemma handler_ids_count self message_object key :
  length (_triggering_message_ids
            (general_message_handler message_accepted self message_object
               key))
  + size (_current_input_components self)
  = length (_triggering_message_ids self)
    + size (_current_input_components
              (general_message_handler message_accepted self message_object
                 key)).
Proof.
  destruct message_object as [m|]; [| reflexivity].
  destruct (decide (ChalithMessage.source_process_id m
                    ∈ _input_components self)) as [Hm|];
    [| by rewrite handler_foreign].
  destruct (decide (ChalithMessage.source_process_id m
                    ∈ _current_input_components self)) as [|Hnew];
    [by rewrite handler_duplicate |].
  pose proof (handler_fresh_step message_accepted self m key Hm Hnew)
    as Hstep.
  cbv zeta in Hstep. destruct Hstep as (-> & _).
  rewrite handler_fresh_arrived by done.
  rewrite length_app, size_union by set_solver.
  rewrite size_singleton. simpl. lia.
Qed.

(** X11.  One causal id per arrival: over any run of messages the list
    [_triggering_message_ids] grows by exactly as many ids as the arrived
    set grows by participants. *)
Theorem one_causal_id_per_arrival deliveries : ∀ self,
  length (_triggering_message_ids
            (handle_all message_accepted self deliveries))
  + size (_current_input_components self)
  = length (_triggering_message_ids self)
    + size (_current_input_components
              (handle_all message_accepted self deliveries)).
Proof.
  induction deliveries as [|[message_object key] rest IH]; intros self;
    [reflexivity |].
  rewrite handle_all_cons.
  pose proof (handler_ids_count self message_object key).
  specialize (IH (general_message_handler message_accepted self
                    message_object key)).
  lia.
Qed.

(** X12.  [process_epoch] is not idempotent once a contribution has
    arrived: it stores the accumulator with the own value appended, so a
    second call in the same epoch sends a second result whose value carries
    the own value twice. *)
Theorem process_epoch_again_appends_own_value_again self :
  _current_input_components self ≠ ∅ →
  (∀ e ids v, message_accepted e ids v = true) →
  sent (process_epoch message_accepted
          (process_epoch message_accepted self).1).1
  = sent self
    ++ [ResultMessage (_latest_epoch self) (_triggering_message_ids self)
          (_current_message self +:+ chalith_value self);
        ResultMessage (_latest_epoch self) (_triggering_message_ids self)
          ((_current_message self +:+ chalith_value self)
             +:+ chalith_value self)].
Proof.
  intros Harrived Haccepted.
  unfold process_epoch, _send_chalith_message.
  repeat (first [rewrite (bool_decide_eq_true_2 _ Harrived)
                | rewrite Haccepted]; simpl).
  by rewrite <- (assoc_L (++)).
Qed.

Lemma accepted_all (key : ChalithMessage.t → string) expected ms :
  ∀ arrived,
  NoDup (ChalithMessage.source_process_id <$> ms) →
  (∀ m, m ∈ ms →
        ChalithMessage.source_process_id m ∈ expected
        ∧ ChalithMessage.source_process_id m ∉ arrived) →
  accepted expected arrived ((λ m, (IsChalithMessage m, key m)) <$> ms)
  = ms.
Proof.
  induction ms as [|m ms IH]; intros arrived Hnodup Hfresh;
    [reflexivity |].
  cbn [fmap list_fmap accepted].
  apply NoDup_cons in Hnodup as [Hm Hnodup].
  rewrite bool_decide_eq_true_2 by (apply Hfresh, list_elem_of_here).
  f_equal. apply IH; [done |].
  intros m' Hm'. destruct (Hfresh m' (list_elem_of_further _ _ _ Hm'))
    as [Hexp Hnew].
  split; [done |].
  intros [Heq%elem_of_singleton | Hin]%elem_of_union; [| done].
  apply Hm. rewrite <- Heq. by apply list_elem_of_fmap_2.
Qed.

(** X13.  A full round: from a state with an empty arrived set, when the
    messages of a run come from the expected participants, each exactly
    once and in any order, every message is accepted, the epoch is complete
    after the run, and the run sends one message: the result for the current
    epoch, with the causal ids and the values of the messages in arrival
    order and the own value at the end (or the error message, when the
    result message cannot be built). *)
Theorem each_participant_once_completes_the_epoch self ms
    (key : ChalithMessage.t → string) :
  _current_input_components self = ∅ →
  ms ≠ [] →
  ChalithMessage.source_process_id <$> ms
    ≡ₚ elements (_input_components self) →
  let self' :=
    handle_all message_accepted self
      ((λ m, (IsChalithMessage m, key m)) <$> ms) in
  all_messages_received_for_epoch self' = true
  ∧ sent self'
    = sent self
      ++ [outgoing message_accepted (_latest_epoch self)
            (_triggering_message_ids self
               ++ (ChalithMessage.message_id <$> ms))
            ((_current_message self
                +:+ concat_values (ChalithMessage.chalith_value <$> ms))
               +:+ chalith_value self)].
Proof.
  intros Hempty Hne Hperm. cbv zeta.
  assert (list_to_set (ChalithMessage.source_process_id <$> ms)
          = _input_components self) as Hsources
    by (by rewrite Hperm, list_to_set_elements_L).
  assert (accepted (_input_components self)
            (_current_input_components self)
            ((λ m, (IsChalithMessage m, key m)) <$> ms) = ms) as Hacc.
  { apply accepted_all.
    - rewrite Hperm. apply NoDup_elements.
    - intros m Hm. rewrite Hempty. split; [| apply not_elem_of_empty].
      rewrite <- Hsources. by apply elem_of_list_to_set, list_elem_of_fmap_2. }
  pose proof (handle_all_collecting message_accepted
                ((λ m, (IsChalithMessage m, key m)) <$> ms) self) as Hrun.
  cbv zeta in Hrun. rewrite Hacc in Hrun.
  destruct Hrun as (Harr & _ & Hrun).
  - rewrite Hempty. apply empty_subseteq.
  - rewrite Hempty, <- Hsources. destruct ms as [|m ms]; [done |].
    cbn [fmap list_fmap list_to_set]. intros Heq.
    apply (not_elem_of_empty (C := gset string)
             (ChalithMessage.source_process_id m)).
    rewrite Heq. apply elem_of_union_l. by apply elem_of_singleton.
  - assert (all_messages_received_for_epoch
              (handle_all message_accepted self
                 ((λ m, (IsChalithMessage m, key m)) <$> ms)) = true)
      as Hall.
    { apply all_messages_received_true.
      pose proof (handle_all_frame message_accepted
                    ((λ m, (IsChalithMessage m, key m)) <$> ms) self)
        as Hframe.
      cbv zeta in Hframe. destruct Hframe as (_ & -> & _).
      rewrite Harr, Hempty, Hsources. apply (right_id_L ∅ (∪)). }
    rewrite Hall in Hrun. by destruct Hrun as (_ & ->).
Qed.

End Runs.

(** ** [from_json] and the class attributes of the message *)

(** X14.  [from_json] lets an exception out exactly when the constructor
    raises one that is neither a [TypeError] nor a [ValueError] nor a
    [MessageError], and it is that exception; it returns [None] exactly when
    the constructor raises one of these three, never when the constructor
    succeeds. *)
Theorem from_json_raises_or_returns_none_iff
    (cls : gmap string ChalithMessage.Any
           → ChalithMessage.Outcome ChalithMessage.t)
    (json_message : gmap string ChalithMessage.Any) :
  (∀ e, ChalithMessage.from_json cls json_message = ChalithMessage.Raise e
        ↔ cls json_message = ChalithMessage.Raise e
          ∧ e ≠ ChalithMessage.TypeError ∧ e ≠ ChalithMessage.ValueError
          ∧ e ≠ ChalithMessage.MessageError)
  ∧ (ChalithMessage.from_json cls json_message = ChalithMessage.Return None
     ↔ ∃ e, cls json_message = ChalithMessage.Raise e
            ∧ (e = ChalithMessage.TypeError ∨ e = ChalithMessage.ValueError
               ∨ e = ChalithMessage.MessageError)).
Proof.
  unfold ChalithMessage.from_json.
  destruct (cls json_message) as [m|e'] eqn:Hcls.
  - split; [intros e; split; [done | by intros [? _]] |].
    split; [done | by intros (? & ? & _)].
  - destruct e'; simpl.
    + split; [intros e; split; [done | by intros [[= <-] (? & _)]] |].
      split; [intros _; eexists; split; [done | by left] | done].
    + split; [intros e; split; [done | by intros [[= <-] (_ & ? & _)]] |].
      split; [intros _; eexists; split; [done | by right; left] | done].
    + split; [intros e; split; [done | by intros [[= <-] (_ & _ & ?)]] |].
      split; [intros _; eexists; split; [done | by right; right] | done].
    + split; [intros e; split; [by intros [= <-] | by intros [[= <-] _]] |].
      split; [done |]. by intros (e & [= <-] & [? | [? | ?]]).
Qed.

(** X15.  In the full attribute table of the message class the JSON name
    "ChalithValue" stands for the property "chalith_value", whatever the
    table of the parent class says about that name, and every other name
    stands for what it stands for in the parent class. *)
Theorem message_attributes_full_lookup (parent : gmap string string)
    (json_attribute_name : string) :
  ChalithMessage.MESSAGE_ATTRIBUTES_FULL parent !! json_attribute_name
  = if decide (json_attribute_name = "ChalithValue")
    then Some "chalith_value"
    else parent !! json_attribute_name.
Proof.
  unfold ChalithMessage.MESSAGE_ATTRIBUTES_FULL,
    ChalithMessage.MESSAGE_ATTRIBUTES,
    ChalithMessage.CHALITH_VALUE_ATTRIBUTE,
    ChalithMessage.CHALITH_VALUE_PROPERTY.
  case_decide as Hname.
  - subst. apply lookup_union_Some_l, lookup_singleton_eq.
  - rewrite lookup_union_r; [done |]. by apply lookup_singleton_ne.
Qed.

(** ** The further properties at work on concrete inputs *)

Lemma parsed_names_are_nonempty_and_comma_free_witness :
  ("A" ∈ parse_input_components ",A,,B")
  ∧ "A" ≠ "" ∧ ","%char ∉ chars "A".
Proof.
  assert ("A" ∈ parse_input_components ",A,,B") as Hin by (by vm_compute).
  split; [exact Hin |].
  exact (parsed_names_are_nonempty_and_comma_free ",A,,B" "A" Hin).
Defined.

Lemma parse_input_components_str_join_witness :
  Forall (λ name, name ≠ "" ∧ ","%char ∉ chars name) ["B"; "A"; "B"]
  ∧ parse_input_components (str_join "," ["B"; "A"; "B"])
    = list_to_set ["B"; "A"; "B"].
Proof.
  assert (Forall (λ name, name ≠ "" ∧ ","%char ∉ chars name)
            ["B"; "A"; "B"]) as Hnames
    by (apply (bool_decide_unpack _); by vm_compute).
  split; [exact Hnames |].
  exact (parse_input_components_str_join ["B"; "A"; "B"] Hnames).
Defined.

Lemma created_component_ignores_malformed_sender_witness :
  (_input_components (create_component example_environment)
   = _input_components (create_component example_environment)
   ∧ (ChalithMessage.source_process_id (contribution "" "z" "m9" 1) = ""
      ∨ ","%char
        ∈ chars (ChalithMessage.source_process_id
                   (contribution "" "z" "m9" 1))))
  ∧ general_message_handler accept_all
      (create_component example_environment)
      (IsChalithMessage (contribution "" "z" "m9" 1)) "ChalithTopic."
    = create_component example_environment.
Proof.
  split; [split; [reflexivity | left; reflexivity] |].
  apply (created_component_ignores_malformed_sender accept_all
           example_environment (create_component example_environment)
           (contribution "" "z" "m9" 1) "ChalithTopic.");
    [reflexivity | left; reflexivity].
Defined.

Lemma completion_does_not_depend_on_arrival_order_witness :
  reverse a_then_b ≡ₚ a_then_b
  ∧ all_messages_received_for_epoch
      (handle_all accept_all collecting_epoch_1 (reverse a_then_b))
    = all_messages_received_for_epoch
        (handle_all accept_all collecting_epoch_1 a_then_b).
Proof.
  split; [apply reverse_Permutation |].
  apply (completion_does_not_depend_on_arrival_order accept_all
           collecting_epoch_1 (reverse a_then_b) a_then_b).
  apply reverse_Permutation.
Defined.

Lemma complete_epoch_ignores_messages_witness :
  all_messages_received_for_epoch
    (handle_all accept_all collecting_epoch_1 a_then_b) = true
  ∧ handle_all accept_all
      (handle_all accept_all collecting_epoch_1 a_then_b)
      a_twice_and_a_stranger
    = handle_all accept_all collecting_epoch_1 a_then_b.
Proof.
  split; [by vm_compute |].
  apply (complete_epoch_ignores_messages accept_all
           (handle_all accept_all collecting_epoch_1 a_then_b)
           a_twice_and_a_stranger).
  by vm_compute.
Defined.

Lemma missing_participant_blocks_the_epoch_witness :
  (("B" ∈ _input_components collecting_epoch_1)
   ∧ ("B" ∉ _current_input_components collecting_epoch_1)
   ∧ ("B" ∉ senders a_twice_and_a_stranger))
  ∧ sent (handle_all accept_all collecting_epoch_1 a_twice_and_a_stranger)
    = sent collecting_epoch_1
  ∧ all_messages_received_for_epoch
      (handle_all accept_all collecting_epoch_1 a_twice_and_a_stranger)
    = false.
Proof.
  split; [split; [by vm_compute | split; by vm_compute] |].
  apply (missing_participant_blocks_the_epoch accept_all collecting_epoch_1
           a_twice_and_a_stranger "B"); by vm_compute.
Defined.

Lemma process_epoch_again_appends_own_value_again_witness :
  (_current_input_components a_has_arrived ≠ ∅
   ∧ ∀ e ids v, accept_all e ids v = true)
  ∧ sent (process_epoch accept_all
            (process_epoch accept_all a_has_arrived).1).1
    = [ResultMessage 1 ["m1"] "xown"; ResultMessage 1 ["m1"] "xownown"].
Proof.
  assert (_current_input_components a_has_arrived ≠ ∅) as Harrived.
  { apply (non_empty_inhabited_L "A"). by vm_compute. }
  split; [split; [exact Harrived | reflexivity] |].
  exact (process_epoch_again_appends_own_value_again accept_all
           a_has_arrived Harrived (λ _ _ _, eq_refl)).
Defined.

Lemma each_participant_once_completes_the_epoch_witness :
  (_current_input_components collecting_epoch_1 = ∅
   ∧ a_and_b ≠ []
   ∧ ChalithMessage.source_process_id <$> a_and_b
       ≡ₚ elements (_input_components collecting_epoch_1))
  ∧ all_messages_received_for_epoch
      (handle_all accept_all collecting_epoch_1
         ((λ m, (IsChalithMessage m, "ChalithTopic")) <$> a_and_b)) = true
  ∧ sent
      (handle_all accept_all collecting_epoch_1
         ((λ m, (IsChalithMessage m, "ChalithTopic")) <$> a_and_b))
    = [ResultMessage 1 ["m1"; "m2"] "xyown"].
Proof.
  assert (ChalithMessage.source_process_id <$> a_and_b
            ≡ₚ elements (_input_components collecting_epoch_1)) as Hperm
    by (by vm_compute).
  split; [split; [reflexivity | split; [done | exact Hperm]] |].
  exact (each_participant_once_completes_the_epoch accept_all
           collecting_epoch_1 a_and_b (λ _, "ChalithTopic")
           eq_refl ltac:(done) Hperm).
Defined.
